(** * Package serial (serial_linux.go): configuration validation and the
      port-handle life cycle

    The Go file is embedded shallowly.  Pure code ([validateConfig] and the
    four lookup tables) becomes Rocq functions over stdpp's [gmap]; the
    methods of [*Serial] become programs of a small free monad [Prog] whose
    events are the calls the package makes into [os] and
    [golang.org/x/sys/unix].  A program is run against a scripted operating
    system that records every call, which is how the statements about
    "which OS calls are issued" are phrased. *)

From Stdlib Require Import ZArith Lia Ascii String.
From stdpp Require Import base strings list gmap pretty.

Local Open Scope Z_scope.

(** ** Go values *)

(** [uint32], [uintptr], [int]: the code only compares them, uses them as
    map keys and or-s them together, so no wrap-around can occur and they
    are plain integers. *)
Abbreviation uint32 := Z.
Abbreviation uintptr := Z.

(** A run-time panic.  The only one the package can raise is the bounds
    check of a string index expression [cfg[i]]. *)
Inductive panic : Type :=
  | IndexOutOfRange (i : nat) (len : nat).

(** The outcome of a Go function call: it returns or it panics. *)
Inductive go (A : Type) : Type :=
  | Returns (a : A)
  | Panics (p : panic).
Arguments Returns {A} a.
Arguments Panics {A} p.

#[export] Instance go_ret : MRet go := fun A a => Returns a.
#[export] Instance go_bind : MBind go := fun A B f m =>
  match m with
  | Returns a => f a
  | Panics p => Panics p
  end.

(** [s[i]] on a Go string: the byte at index [i], or a panic. *)
Definition index (s : string) (i : nat) : go ascii :=
  match String.get i s with
  | Some c => Returns c
  | None => Panics (IndexOutOfRange i (String.length s))
  end.

(** ** Package fmt *)

Module fmt.

(** Operands of a formatting call, as far as this package passes them. *)
Inductive arg : Type :=
  | S (s : string)
  | D (n : Z).

(** [fmt.Sprintf] for the two verbs the package uses: [%s] with a string
    operand and [%d] with an integer operand.  Any other use of [%] is
    outside the model and is copied through unchanged. *)
Fixpoint Sprintf (format : string) (args : list arg) : string :=
  match format with
  | EmptyString => EmptyString
  | String "%" (String "s" rest as tl) =>
      match args with
      | S s :: args' => s +:+ Sprintf rest args'
      | _ => String "%" (Sprintf tl args)
      end
  | String "%" (String "d" rest as tl) =>
      match args with
      | D n :: args' => pretty n +:+ Sprintf rest args'
      | _ => String "%" (Sprintf tl args)
      end
  | String c rest => String c (Sprintf rest args)
  end.

End fmt.

(** ** Errors *)

(** The dynamic type behind an [error] value: the result of
    [fmt.Errorf format args], whose text is [fmt.Sprintf format args]; a
    [unix.Errno] returned as an error; or an error made by the operating
    system layer ([os], [unix.SetNonblock]), which the package only
    passes on. *)
Inductive error : Type :=
  | Errorf (format : string) (args : list fmt.arg)
  | Errno_error (errno : Z)
  | OS_error (code : Z).

(** ** Package golang.org/x/sys/unix *)

Module unix.

(** The constants the package reads from [golang.org/x/sys/unix].  Their
    values belong to the kernel ABI, not to this repository, so they are
    parameters.  [NCCS] is the length of [Termios.Cc]; the Go compiler
    checks the two constant indices against it.  The last field records
    that [VMIN] and [VTIME] name different slots of that array. *)
Class Consts : Type := {
  B50 : uint32; B75 : uint32; B110 : uint32; B134 : uint32; B150 : uint32;
  B200 : uint32; B300 : uint32; B600 : uint32; B1200 : uint32;
  B1800 : uint32; B2400 : uint32; B4800 : uint32; B9600 : uint32;
  B19200 : uint32; B38400 : uint32; B57600 : uint32; B115200 : uint32;
  B230400 : uint32; B460800 : uint32; B500000 : uint32; B576000 : uint32;
  B921600 : uint32; B1000000 : uint32; B1152000 : uint32;
  B1500000 : uint32; B2000000 : uint32; B2500000 : uint32;
  B3000000 : uint32; B3500000 : uint32; B4000000 : uint32;
  CS5 : uint32; CS6 : uint32; CS7 : uint32; CS8 : uint32;
  CSTOPB : uint32; PARENB : uint32; PARODD : uint32;
  CREAD : uint32; CLOCAL : uint32; IGNPAR : uint32;
  NCCS : nat; VMIN : nat; VTIME : nat;
  TCSETS : uintptr; TCFLSH : uintptr; TCIOFLUSH : uintptr;
  TCSBRKP : uintptr; SYS_IOCTL : uintptr;
  EBADFD : Z;
  O_RDWR : Z; O_NOCTTY : Z; O_NONBLOCK : Z;
  VMIN_in_range : (VMIN < NCCS)%nat;
  VTIME_in_range : (VTIME < NCCS)%nat;
  VMIN_VTIME_distinct : VMIN <> VTIME
}.

(** [unix.Termios], with the fields the package for Linux declares; [Cc]
    is an array of [NCCS] bytes. *)
Record Termios : Type := {
  Iflag : uint32;
  Oflag : uint32;
  Cflag : uint32;
  Lflag : uint32;
  Line : Z;
  Cc : list Z;
  Ispeed : uint32;
  Ospeed : uint32
}.

(** The values of linux/amd64, to run the definitions on. *)
Definition linux_amd64 : Consts := {|
  B50 := 0x1; B75 := 0x2; B110 := 0x3; B134 := 0x4; B150 := 0x5;
  B200 := 0x6; B300 := 0x7; B600 := 0x8; B1200 := 0x9; B1800 := 0xa;
  B2400 := 0xb; B4800 := 0xc; B9600 := 0xd; B19200 := 0xe;
  B38400 := 0xf; B57600 := 0x1001; B115200 := 0x1002;
  B230400 := 0x1003; B460800 := 0x1004; B500000 := 0x1005;
  B576000 := 0x1006; B921600 := 0x1007; B1000000 := 0x1008;
  B1152000 := 0x1009; B1500000 := 0x100a; B2000000 := 0x100b;
  B2500000 := 0x100c; B3000000 := 0x100d; B3500000 := 0x100e;
  B4000000 := 0x100f;
  CS5 := 0x0; CS6 := 0x10; CS7 := 0x20; CS8 := 0x30;
  CSTOPB := 0x40; PARENB := 0x100; PARODD := 0x200;
  CREAD := 0x80; CLOCAL := 0x800; IGNPAR := 0x4;
  NCCS := 19; VMIN := 6; VTIME := 5;
  TCSETS := 0x5402; TCFLSH := 0x540b; TCIOFLUSH := 0x2;
  TCSBRKP := 0x5425; SYS_IOCTL := 16;
  EBADFD := 0x4d;
  O_RDWR := 0x2; O_NOCTTY := 0x100; O_NONBLOCK := 0x800;
  VMIN_in_range := ltac:(cbv; lia);
  VTIME_in_range := ltac:(cbv; lia);
  VMIN_VTIME_distinct := ltac:(discriminate)
|}.

End unix.

(** ** The lookup tables and the validator *)

Section Config.
Context {U : unix.Consts}.

Definition baudMap : gmap Z uint32 := list_to_map [
  (50, unix.B50);
  (75, unix.B75);
  (110, unix.B110);
  (134, unix.B134);
  (150, unix.B150);
  (200, unix.B200);
  (300, unix.B300);
  (600, unix.B600);
  (1200, unix.B1200);
  (1800, unix.B1800);
  (2400, unix.B2400);
  (4800, unix.B4800);
  (9600, unix.B9600);
  (19200, unix.B19200);
  (38400, unix.B38400);
  (57600, unix.B57600);
  (115200, unix.B115200);
  (230400, unix.B230400);
  (460800, unix.B460800);
  (500000, unix.B500000);
  (576000, unix.B576000);
  (921600, unix.B921600);
  (1000000, unix.B1000000);
  (1152000, unix.B1152000);
  (1500000, unix.B1500000);
  (2000000, unix.B2000000);
  (2500000, unix.B2500000);
  (3000000, unix.B3000000);
  (3500000, unix.B3500000);
  (4000000, unix.B4000000)
].

Definition dataBitsMap : gmap ascii uint32 := list_to_map [
  ("5"%char, unix.CS5);
  ("6"%char, unix.CS6);
  ("7"%char, unix.CS7);
  ("8"%char, unix.CS8)
].

Definition stopBitsMap : gmap ascii uint32 := list_to_map [
  ("1"%char, 0);
  ("2"%char, unix.CSTOPB)
].

Definition parityMap : gmap ascii uint32 := list_to_map [
  ("N"%char, 0);
  ("O"%char, Z.lor unix.PARENB unix.PARODD);
  ("E"%char, unix.PARENB)
].

(** [validateConfig]: the named results [rate] and [flags] start at zero,
    each table hit updates one of them, and every failing branch returns
    the literal [0, 0] with its error. *)
Definition validateConfig (baud : Z) (cfg : string)
  : go (uint32 * uint32 * option error) :=
  let rate := 0 in
  let flags := 0 in
  match baudMap !! baud with
  | None => Returns (0, 0, Some (Errorf "Invalid baud rate parameter." []))
  | Some tmp =>
    let rate := tmp in
    c0 ← index cfg 0;
    match dataBitsMap !! c0 with
    | None => Returns (0, 0, Some (Errorf "Invalid data bits parameter." []))
    | Some tmp =>
      let flags := Z.lor flags tmp in
      c1 ← index cfg 1;
      match parityMap !! c1 with
      | None => Returns (0, 0, Some (Errorf "Invalid parity parameter." []))
      | Some tmp =>
        let flags := Z.lor flags tmp in
        c2 ← index cfg 2;
        match stopBitsMap !! c2 with
        | None => Returns (0, 0, Some (Errorf "Invalid parity parameter." []))
        | Some tmp =>
          let flags := Z.lor flags tmp in
          Returns (rate, flags, None)
        end
      end
    end
  end.

End Config.

(** ** The operating system boundary *)

Module os.

(** [*os.File], as far as the package looks into it: its descriptor.
    [f.Fd()] is the field read, and the conversions between [uintptr] and
    [int] around it are the identity on the values a descriptor takes. *)
Record File : Type := { Fd : uintptr }.

End os.

(** The third argument of the ioctl system call: a plain word, or the
    address of a [Termios] block, which stands for the block the kernel
    reads through it. *)
Inductive sysarg : Type :=
  | Word (n : uintptr)
  | Pointer (t : unix.Termios).

(** The calls the package makes outside itself, indexed by what they
    return.  [os_OpenFile] yields a file or an error; [File_Read] also
    yields the contents of the buffer after the call. *)
Inductive osE : Type -> Type :=
  | os_OpenFile (name : string) (flag : Z) (perm : Z)
      : osE (os.File + error)
  | File_Close (f : os.File) : osE (option error)
  | File_Write (f : os.File) (b : list Byte.byte)
      : osE (Z * option error)
  | File_Read (f : os.File) (b : list Byte.byte)
      : osE (list Byte.byte * Z * option error)
  | unix_Syscall (trap a1 a2 : uintptr) (a3 : sysarg)
      : osE (uintptr * uintptr * Z)
  | unix_SetNonblock (fd : Z) (nonblocking : bool)
      : osE (option error).

(** Programs over those calls: return, panic, or make a call and go on
    with its answer. *)
Inductive Prog (A : Type) : Type :=
  | Ret (a : A)
  | Panic (p : panic)
  | Vis {R : Type} (e : osE R) (k : R -> Prog A).
Arguments Ret {A} a.
Arguments Panic {A} p.
Arguments Vis {A R} e k.

Fixpoint bind {A B : Type} (m : Prog A) (f : A -> Prog B) : Prog B :=
  match m with
  | Ret a => f a
  | Panic p => Panic p
  | Vis e k => Vis e (fun r => bind (k r) f)
  end.

#[export] Instance Prog_ret : MRet Prog := fun A a => Ret a.
#[export] Instance Prog_bind : MBind Prog := fun A B f m => bind m f.

Definition trigger {R : Type} (e : osE R) : Prog R := Vis e Ret.

(** A pure Go call inside a method: its panic is the method's. *)
Definition lift {A : Type} (r : go A) : Prog A :=
  match r with
  | Returns a => Ret a
  | Panics p => Panic p
  end.

(** One recorded call with the answer it got. *)
Inductive event : Type :=
  | Event {R : Type} (e : osE R) (r : R).

Definition trace : Type := list event.

(** A scripted operating system: the answer to a call, given everything
    that happened before it. *)
Definition OS : Type := forall R : Type, trace -> osE R -> R.

(** Running a program against a scripted system, from the trace [tr] on:
    the outcome and the extended trace. *)
Fixpoint run {A : Type} (sys : OS) (p : Prog A) (tr : trace)
  : go A * trace :=
  match p with
  | Ret a => (Returns a, tr)
  | Panic q => (Panics q, tr)
  | Vis e k => let r := sys _ tr e in run sys (k r) (tr ++ [Event e r])
  end.

(** ** The port handle *)

Record Serial : Type := {
  Name : string;
  file : option os.File
}.

Section Methods.
Context {U : unix.Consts}.

Definition ioctl (s : Serial) (req : uintptr) (arg : sysarg) : Prog Z :=
  match file s with
  | None => mret unix.EBADFD
  | Some f =>
    '(_, _, errno) ← trigger (unix_Syscall unix.SYS_IOCTL (os.Fd f) req arg);
    mret errno
  end.

Definition Close (s : Serial) : Prog (Serial * option error) :=
  match file s with
  | Some f =>
    _ ← trigger (File_Close f);
    let s := {| Name := Name s; file := None |} in
    mret (s, None)
  | None => mret (s, None)
  end.

(** [t.Cc[i] = v] *)
Definition Cc_store (t : unix.Termios) (i : nat) (v : Z) : unix.Termios :=
  {| unix.Iflag := unix.Iflag t; unix.Oflag := unix.Oflag t;
     unix.Cflag := unix.Cflag t; unix.Lflag := unix.Lflag t;
     unix.Line := unix.Line t; unix.Cc := <[i := v]> (unix.Cc t);
     unix.Ispeed := unix.Ispeed t; unix.Ospeed := unix.Ospeed t |}.

(** The block [SetBaud] builds: the composite literal (fields it does not
    name are zero), then the two stores into [Cc]. *)
Definition termios_of (rate flags : uint32) : unix.Termios :=
  let t := {|
    unix.Iflag := unix.IGNPAR;
    unix.Oflag := 0;
    unix.Cflag :=
      Z.lor (Z.lor (Z.lor unix.CREAD unix.CLOCAL) rate) flags;
    unix.Lflag := 0;
    unix.Line := 0;
    unix.Cc := replicate unix.NCCS 0;
    unix.Ispeed := rate;
    unix.Ospeed := rate
  |} in
  let t := Cc_store t unix.VMIN 1 in
  let t := Cc_store t unix.VTIME 4 in
  t.

Definition newline : string := String "010"%char EmptyString.

Definition SetBaud (s : Serial) (baud : Z) (cfg : string)
  : Prog (Serial * option error) :=
  match file s with
  | None => mret (s, Some (Errorf "Serial port '%s' not open." [fmt.S (Name s)]))
  | Some f =>
    '(rate, flags, err) ← lift (validateConfig baud cfg);
    match err with
    | Some err => mret (s, Some err)
    | None =>
      let t := termios_of rate flags in
      errno ← ioctl s unix.TCSETS (Pointer t);
      if decide (0 ≠ errno) then
        mret (s, Some (Errorf ("ioctl( '%s', TCSETS, &t ) error: %d" +:+ newline)
                              [fmt.S (Name s); fmt.D errno]))
      else
        err ← trigger (unix_SetNonblock (os.Fd f) false);
        mret (s, err)
    end
  end.

Definition Open (s : Serial) : Prog (Serial * option error) :=
  match file s with
  | Some _ =>
    mret (s, Some (Errorf "Serial port '%s' already open." [fmt.S (Name s)]))
  | None =>
    r ← trigger (os_OpenFile (Name s)
                   (Z.lor (Z.lor unix.O_RDWR unix.O_NOCTTY) unix.O_NONBLOCK)
                   438 (* 0666 *));
    match r with
    | inr err => mret (s, Some err)
    | inl f =>
      let s := {| Name := Name s; file := Some f |} in
      mret (s, None)
    end
  end.

Definition Write (s : Serial) (b : list Byte.byte)
  : Prog (Serial * (Z * option error)) :=
  match file s with
  | None =>
    mret (s, (0, Some (Errorf "Serial port '%s' not open." [fmt.S (Name s)])))
  | Some f => r ← trigger (File_Write f b); mret (s, r)
  end.

(** The result carries the buffer as the call leaves it. *)
Definition Read (s : Serial) (b : list Byte.byte)
  : Prog (Serial * (list Byte.byte * Z * option error)) :=
  match file s with
  | None =>
    mret (s, (b, 0, Some (Errorf "Serial port '%s' not open." [fmt.S (Name s)])))
  | Some f => r ← trigger (File_Read f b); mret (s, r)
  end.

Definition Flush (s : Serial) : Prog (Serial * option error) :=
  match file s with
  | None => mret (s, Some (Errorf "Serial port '%s' not open." [fmt.S (Name s)]))
  | Some _ =>
    errno ← ioctl s unix.TCFLSH (Word unix.TCIOFLUSH);
    if decide (0 ≠ errno) then mret (s, Some (Errno_error errno))
    else mret (s, None)
  end.

Definition SendBreak (s : Serial) : Prog (Serial * option error) :=
  match file s with
  | None => mret (s, Some (Errorf "Serial port '%s' not open." [fmt.S (Name s)]))
  | Some _ =>
    errno ← ioctl s unix.TCSBRKP (Word 0);
    if decide (0 ≠ errno) then mret (s, Some (Errno_error errno))
    else mret (s, None)
  end.

End Methods.

(** ** Sequences of method calls *)

(** One call of an exported method, with its arguments. *)
Inductive method : Type :=
  | mOpen
  | mClose
  | mSetBaud (baud : Z) (cfg : string)
  | mWrite (b : list Byte.byte)
  | mRead (b : list Byte.byte)
  | mFlush
  | mSendBreak.

Section Calls.
Context {U : unix.Consts}.

(** The call's effect on the receiver, its results dropped. *)
Definition call (m : method) (s : Serial) : Prog Serial :=
  match m with
  | mOpen => r ← Open s; mret r.1
  | mClose => r ← Close s; mret r.1
  | mSetBaud baud cfg => r ← SetBaud s baud cfg; mret r.1
  | mWrite b => r ← Write s b; mret r.1
  | mRead b => r ← Read s b; mret r.1
  | mFlush => r ← Flush s; mret r.1
  | mSendBreak => r ← SendBreak s; mret r.1
  end.

Fixpoint calls (ms : list method) (s : Serial) : Prog Serial :=
  match ms with
  | [] => mret s
  | m :: ms => s' ← call m s; calls ms s'
  end.

End Calls.

(** The file a recorded call handed out, if it is a successful
    [os.OpenFile]. *)
Definition opened_by (ev : event) : option os.File :=
  match ev with
  | Event e r =>
    match e in osE R return R → option os.File with
    | os_OpenFile _ _ _ =>
        fun r => match r with inl f => Some f | inr _ => None end
    | _ => fun _ => None
    end r
  end.

(** The file of the most recent successful [os.OpenFile] of a trace. *)
Definition last_opened (tr : trace) : option os.File :=
  last (omap opened_by tr).

(** The handle field is absent, or it is the handle the most recent
    successful open acquired. *)
Definition handle_inv (s : Serial) (tr : trace) : Prop :=
  file s = None ∨ file s = last_opened tr.

(** ** The discipline of a trace *)

#[export] Instance File_eq_dec : EqDecision os.File.
Proof. solve_decision. Defined.

Section Discipline.
Context {U : unix.Consts}.

(** One recorded call checked against the file held before it, giving
    the file held after it, or [None] when the call breaks the
    discipline: [os.OpenFile] is only called while no file is held and a
    successful one makes its file the held one; every other call works on
    the held file or on its descriptor, the only system call is the ioctl,
    and closing the held file leaves none held. *)
Definition obeys (held : option os.File) (ev : event)
  : option (option os.File) :=
  match ev with
  | Event e r =>
    match e in osE R return R → option (option os.File) with
    | os_OpenFile _ _ _ => fun r =>
        match held with
        | Some _ => None
        | None => Some (match r with inl f => Some f | inr _ => None end)
        end
    | File_Close f => fun _ =>
        if decide (held = Some f) then Some None else None
    | File_Write f _ => fun _ =>
        if decide (held = Some f) then Some held else None
    | File_Read f _ => fun _ =>
        if decide (held = Some f) then Some held else None
    | unix_Syscall trap fd _ _ => fun _ =>
        if decide (trap = unix.SYS_IOCTL ∧ os.Fd <$> held = Some fd)
        then Some held else None
    | unix_SetNonblock fd _ => fun _ =>
        if decide (os.Fd <$> held = Some fd) then Some held else None
    end r
  end.

(** A whole trace, read from its first call with no file held. *)
Definition discipline (tr : trace) : option (option os.File) :=
  foldl (fun st ev => held ← st; obeys held ev) (Some None) tr.

End Discipline.

(** The calls a program adds to the trace it starts from. *)
Definition added {A : Type} (sys : OS) (p : Prog A) (tr : trace) : trace :=
  drop (length tr) (run sys p tr).2.

(** ** Two scripted systems to run the methods on *)

(** Every call succeeds; files get descriptor 3. *)
Definition obliging : OS := fun R tr e =>
  match e in osE R return R with
  | os_OpenFile _ _ _ => inl {| os.Fd := 3 |}
  | File_Close _ => None
  | File_Write _ b => (Z.of_nat (length b), None)
  | File_Read _ b => (b, 0, None)
  | unix_Syscall _ _ _ _ => (0, 0, 0)
  | unix_SetNonblock _ _ => None
  end.

(** Every call fails: [ENOENT] on open, [EIO] elsewhere. *)
Definition refusing : OS := fun R tr e =>
  match e in osE R return R with
  | os_OpenFile _ _ _ => inr (OS_error 2)
  | File_Close _ => Some (OS_error 5)
  | File_Write _ _ => (0, Some (OS_error 5))
  | File_Read _ b => (b, 0, Some (OS_error 5))
  | unix_Syscall _ _ _ _ => (18446744073709551615, 0, 5)
  | unix_SetNonblock _ _ => Some (Errno_error 5)
  end.

(** ** Vocabulary of the interface description *)

(** The accepted baud values, as the interface description lists them. *)
Definition supported_bauds : list Z := [
  50; 75; 110; 134; 150; 200; 300; 600; 1200; 1800; 2400; 4800; 9600;
  19200; 38400; 57600; 115200; 230400; 460800; 500000; 576000; 921600;
  1000000; 1152000; 1500000; 2000000; 2500000; 3000000; 3500000; 4000000
].

(** The mode grammar [[5678][NOE][12]], position by position. *)
Definition data_bits_chars : list ascii := ["5"; "6"; "7"; "8"]%char.
Definition parity_chars : list ascii := ["N"; "O"; "E"]%char.
Definition stop_bits_chars : list ascii := ["1"; "2"]%char.

Definition mode_grammar (cfg : string) : bool :=
  match cfg with
  | String c0 (String c1 (String c2 EmptyString)) =>
      bool_decide (c0 ∈ data_bits_chars)
      && bool_decide (c1 ∈ parity_chars)
      && bool_decide (c2 ∈ stop_bits_chars)
  | _ => false
  end.

(** A call of the validator is accepted when it returns without error. *)
Definition accepted {A B : Type} (r : go (A * B * option error)) : bool :=
  match r with
  | Returns (_, _, None) => true
  | _ => false
  end.

(** * Properties *)

Example validateConfig_9600_8N1 :
  validateConfig (U := unix.linux_amd64) 9600 "8N1" = Returns (13, 48, None).
Proof. vm_compute. reflexivity. Qed.

Example validateConfig_9600_7E2 :
  validateConfig (U := unix.linux_amd64) 9600 "7E2" = Returns (13, Z.lor (Z.lor 0x20 0x100) 0x40, None).
Proof. vm_compute. reflexivity. Qed.

Example Sprintf_not_open name :
  fmt.Sprintf "Serial port '%s' not open." [fmt.S name]
  = "Serial port '" +:+ name +:+ "' not open.".
Proof. reflexivity. Qed.

(** ** The tables *)

Ltac elem_cases H :=
  repeat (apply elem_of_cons in H; destruct H as [-> | H]);
  [.. | by apply elem_of_nil in H].

Section TableFacts.
Context {U : unix.Consts}.

Lemma baudMap_supported (baud : Z) :
  baud ∈ supported_bauds → is_Some (baudMap !! baud).
Proof. intros H. elem_cases H; eexists; vm_compute; reflexivity. Qed.

Lemma baudMap_unsupported (baud : Z) :
  baud ∉ supported_bauds → baudMap !! baud = None.
Proof. intros H. by apply not_elem_of_list_to_map_1. Qed.

Lemma dataBitsMap_grammar (c : ascii) :
  c ∈ data_bits_chars → is_Some (dataBitsMap !! c).
Proof. intros H. elem_cases H; eexists; vm_compute; reflexivity. Qed.

Lemma parityMap_grammar (c : ascii) :
  c ∈ parity_chars → is_Some (parityMap !! c).
Proof. intros H. elem_cases H; eexists; vm_compute; reflexivity. Qed.

Lemma stopBitsMap_grammar (c : ascii) :
  c ∈ stop_bits_chars → is_Some (stopBitsMap !! c).
Proof. intros H. elem_cases H; eexists; vm_compute; reflexivity. Qed.

Lemma stopBitsMap_other (c : ascii) :
  c ∉ stop_bits_chars → stopBitsMap !! c = None.
Proof. intros H. by apply not_elem_of_list_to_map_1. Qed.

Lemma parityMap_other (c : ascii) :
  c ∉ parity_chars → parityMap !! c = None.
Proof. intros H. by apply not_elem_of_list_to_map_1. Qed.

Lemma dataBitsMap_other (c : ascii) :
  c ∉ data_bits_chars → dataBitsMap !! c = None.
Proof. intros H. by apply not_elem_of_list_to_map_1. Qed.

End TableFacts.

(** ** The validator *)

Section Validator.
Context {U : unix.Consts}.

(** What [validateConfig] does once the baud rate is in the table and
    three bytes are there to read. *)
Lemma validateConfig_hit (baud : Z) (c0 c1 c2 : ascii) (rest : string)
    (rate d p st : uint32) :
  baudMap !! baud = Some rate →
  dataBitsMap !! c0 = Some d →
  parityMap !! c1 = Some p →
  stopBitsMap !! c2 = Some st →
  validateConfig baud (String c0 (String c1 (String c2 rest)))
  = Returns (rate, Z.lor (Z.lor d p) st, None).
Proof.
  intros Hb Hd Hp Hs. unfold validateConfig. rewrite Hb. simpl.
  rewrite Hd. simpl. rewrite Hp. simpl. rewrite Hs. reflexivity.
Qed.

Lemma validateConfig_bad_baud (baud : Z) (cfg : string) :
  baudMap !! baud = None →
  validateConfig baud cfg
  = Returns (0, 0, Some (Errorf "Invalid baud rate parameter." [])).
Proof. intros Hb. unfold validateConfig. by rewrite Hb. Qed.

(** The bytes after the third are never read. *)
Lemma validateConfig_prefix (baud : Z) (c0 c1 c2 : ascii) (rest : string) :
  validateConfig baud (String c0 (String c1 (String c2 rest)))
  = validateConfig baud (String c0 (String c1 (String c2 EmptyString))).
Proof. reflexivity. Qed.

Lemma index_short (cfg : string) (i : nat) :
  (String.length cfg ≤ i)%nat →
  index cfg i = Panics (IndexOutOfRange i (String.length cfg)).
Proof.
  intros H. unfold index.
  assert (String.get i cfg = None) as ->; [|done].
  revert i H. induction cfg as [|c cfg IH]; intros [|i] H; simpl in *;
    try done; try lia.
  apply IH. lia.
Qed.

Lemma validateConfig_short (baud : Z) (cfg : string) :
  (String.length cfg < 3)%nat → accepted (validateConfig baud cfg) = false.
Proof.
  intros H. unfold validateConfig.
  destruct (baudMap !! baud); [|done].
  destruct cfg as [|c0 [|c1 [|c2 rest]]]; simpl in *; try lia; try done.
  - destruct (dataBitsMap !! c0); done.
  - destruct (dataBitsMap !! c0); [|done].
    destruct (parityMap !! c1); done.
Qed.

End Validator.

Ltac by_compute :=
  match goal with
  | |- ?P => apply (bool_decide_unpack P); vm_compute; exact I
  end.

(** C1: for a baud rate of the supported set and a three-byte mode string
    of the grammar [[5678][NOE][12]], [validateConfig] returns no error,
    the [baudMap] entry of the baud rate as rate, and as flags the bitwise
    or of the [dataBitsMap] entry of byte 0, the [parityMap] entry of
    byte 1 and the [stopBitsMap] entry of byte 2; for a baud rate outside
    the set it returns the invalid-baud-rate error, whatever the mode
    string. *)
Theorem validateConfig_supported_and_unsupported
    {U : unix.Consts} (baud : Z) (cfg : string) :
  (baud ∈ supported_bauds → mode_grammar cfg = true →
   ∃ (c0 c1 c2 : ascii) (rate d p st : uint32),
     cfg = String c0 (String c1 (String c2 EmptyString))
     ∧ baudMap !! baud = Some rate
     ∧ dataBitsMap !! c0 = Some d
     ∧ parityMap !! c1 = Some p
     ∧ stopBitsMap !! c2 = Some st
     ∧ validateConfig baud cfg
       = Returns (rate, Z.lor (Z.lor d p) st, None))
  ∧ (baud ∉ supported_bauds →
     validateConfig baud cfg
     = Returns (0, 0, Some (Errorf "Invalid baud rate parameter." []))
     ∧ fmt.Sprintf "Invalid baud rate parameter." []
       = "Invalid baud rate parameter.").
Proof.
  split.
  - intros Hb Hg.
    destruct cfg as [|c0 [|c1 [|c2 [|? ?]]]]; simpl in Hg; try discriminate.
    apply andb_prop in Hg as [Hg H2]. apply andb_prop in Hg as [H0 H1].
    apply bool_decide_eq_true in H0, H1, H2.
    destruct (baudMap_supported baud Hb) as [rate Hrate].
    destruct (dataBitsMap_grammar c0 H0) as [d Hd].
    destruct (parityMap_grammar c1 H1) as [p Hp].
    destruct (stopBitsMap_grammar c2 H2) as [st Hst].
    exists c0, c1, c2, rate, d, p, st.
    repeat split; try assumption.
    by apply validateConfig_hit.
  - intros Hb. split; [|reflexivity].
    apply validateConfig_bad_baud. by apply baudMap_unsupported.
Qed.

Lemma validateConfig_supported_and_unsupported_witness :
  (9600 ∈ supported_bauds ∧ mode_grammar "7E2" = true
   ∧ validateConfig (U := unix.linux_amd64) 9600 "7E2"
     = Returns (0xd, Z.lor (Z.lor 0x20 0x100) 0x40, None))
  ∧ ((1 ∉ supported_bauds)
     ∧ validateConfig (U := unix.linux_amd64) 1 "7E2"
       = Returns (0, 0, Some (Errorf "Invalid baud rate parameter." []))).
Proof.
  pose proof (validateConfig_supported_and_unsupported
                (U := unix.linux_amd64)) as T.
  split.
  - assert (9600 ∈ supported_bauds) as Hb by by_compute.
    split; [exact Hb|]. split; [reflexivity|].
    destruct (proj1 (T 9600 "7E2") Hb eq_refl)
      as (c0 & c1 & c2 & rate & d & p & st & Hc & Hr & Hd & Hp & Hs & Hv).
    injection Hc as <- <- <-.
    vm_compute in Hr, Hd, Hp, Hs.
    injection Hr as <-. injection Hd as <-.
    injection Hp as <-. injection Hs as <-.
    exact Hv.
  - assert (1 ∉ supported_bauds) as Hb by by_compute.
    split; [exact Hb|]. exact (proj1 (proj2 (T 1 "7E2") Hb)).
Defined.

(** C2, as the code has it: a mode string shorter than three bytes is
    never accepted, and of a longer one only the first three bytes are
    read, so it gets the result of its three-byte prefix. *)
Theorem validateConfig_mode_length
    {U : unix.Consts} (baud : Z) (cfg : string) :
  ((String.length cfg < 3)%nat →
   accepted (validateConfig baud cfg) = false)
  ∧ (∀ (c0 c1 c2 : ascii) (rest : string),
       cfg = String c0 (String c1 (String c2 rest)) →
       validateConfig baud cfg
       = validateConfig baud (String c0 (String c1 (String c2 EmptyString)))).
Proof.
  split.
  - apply validateConfig_short.
  - intros c0 c1 c2 rest ->. apply validateConfig_prefix.
Qed.

Lemma validateConfig_mode_length_witness :
  ((String.length "8N" < 3)%nat
   ∧ accepted (validateConfig (U := unix.linux_amd64) 9600 "8N") = false)
  ∧ validateConfig (U := unix.linux_amd64) 9600 "8N1 and more"
    = validateConfig (U := unix.linux_amd64) 9600 "8N1".
Proof.
  split.
  - assert ((String.length "8N" < 3)%nat) as Hl by (simpl; lia).
    split; [exact Hl|].
    exact (proj1 (validateConfig_mode_length
                    (U := unix.linux_amd64) 9600 "8N") Hl).
  - exact (proj2 (validateConfig_mode_length
                    (U := unix.linux_amd64) 9600 "8N1 and more")
             "8"%char "N"%char "1"%char " and more" eq_refl).
Defined.

(** C2, as stated, fails: a four-byte mode string with a well-formed
    prefix is accepted, and a two-byte one makes the call panic on the
    index expression instead of returning an error. *)
Lemma validateConfig_mode_length_counterexample :
  String.length "8N1x" = 4%nat
  ∧ validateConfig (U := unix.linux_amd64) 9600 "8N1x"
    = Returns (0xd, 0x30, None)
  ∧ String.length "8N" = 2%nat
  ∧ validateConfig (U := unix.linux_amd64) 9600 "8N"
    = Panics (IndexOutOfRange 2 2).
Proof. repeat split; vm_compute; reflexivity. Qed.

(** C4: when baud rate, data bits and parity are valid and byte 2 is
    neither '1' nor '2', [validateConfig] fails with the error whose text
    is "Invalid parity parameter.", the very error a bad parity byte
    gets. *)
Theorem validateConfig_stop_bits_error
    {U : unix.Consts} (baud : Z) (c0 c1 c2 : ascii) (rest : string) :
  baud ∈ supported_bauds →
  c0 ∈ data_bits_chars →
  c1 ∈ parity_chars →
  c2 ∉ stop_bits_chars →
  validateConfig baud (String c0 (String c1 (String c2 rest)))
  = Returns (0, 0, Some (Errorf "Invalid parity parameter." []))
  ∧ fmt.Sprintf "Invalid parity parameter." []
    = "Invalid parity parameter."
  ∧ ∀ b1 : ascii,
      b1 ∉ parity_chars →
      validateConfig baud (String c0 (String b1 (String c2 rest)))
      = validateConfig baud (String c0 (String c1 (String c2 rest))).
Proof.
  intros Hb H0 H1 H2.
  destruct (baudMap_supported baud Hb) as [rate Hrate].
  destruct (dataBitsMap_grammar c0 H0) as [d Hd].
  destruct (parityMap_grammar c1 H1) as [p Hp].
  pose proof (stopBitsMap_other c2 H2) as Hs.
  assert (validateConfig baud (String c0 (String c1 (String c2 rest)))
          = Returns (0, 0, Some (Errorf "Invalid parity parameter." [])))
    as Hv.
  { unfold validateConfig. rewrite Hrate. simpl. rewrite Hd. simpl.
    rewrite Hp. simpl. by rewrite Hs. }
  split; [exact Hv|]. split; [reflexivity|].
  intros b1 Hb1. rewrite Hv.
  unfold validateConfig. rewrite Hrate. simpl. rewrite Hd. simpl.
  by rewrite (parityMap_other b1 Hb1).
Qed.

Lemma validateConfig_stop_bits_error_witness :
  validateConfig (U := unix.linux_amd64) 9600 "8N3"
  = Returns (0, 0, Some (Errorf "Invalid parity parameter." []))
  ∧ validateConfig (U := unix.linux_amd64) 9600 "8X3"
    = validateConfig (U := unix.linux_amd64) 9600 "8N3".
Proof.
  assert (9600 ∈ supported_bauds) as Hb by by_compute.
  assert ("8"%char ∈ data_bits_chars) as H0 by by_compute.
  assert ("N"%char ∈ parity_chars) as H1 by by_compute.
  assert ("3"%char ∉ stop_bits_chars) as H2 by by_compute.
  assert ("X"%char ∉ parity_chars) as H3 by by_compute.
  destruct (validateConfig_stop_bits_error (U := unix.linux_amd64)
              9600 "8"%char "N"%char "3"%char "" Hb H0 H1 H2)
    as (Hv & _ & Hsame).
  split; [exact Hv | exact (Hsame "X"%char H3)].
Defined.

(** C6: whenever [validateConfig] returns an error, the rate and the
    flags it returns with it are both zero. *)
Theorem validateConfig_error_zero
    {U : unix.Consts} (baud : Z) (cfg : string)
    (rate flags : uint32) (err : error) :
  validateConfig baud cfg = Returns (rate, flags, Some err) →
  rate = 0 ∧ flags = 0.
Proof.
  unfold validateConfig. intros H.
  destruct (baudMap !! baud); [|by inversion H].
  destruct (index cfg 0) as [c0|]; simpl in H; [|discriminate].
  destruct (dataBitsMap !! c0); [|by inversion H].
  destruct (index cfg 1) as [c1|]; simpl in H; [|discriminate].
  destruct (parityMap !! c1); [|by inversion H].
  destruct (index cfg 2) as [c2|]; simpl in H; [|discriminate].
  destruct (stopBitsMap !! c2); by inversion H.
Qed.

Lemma validateConfig_error_zero_witness :
  validateConfig (U := unix.linux_amd64) 9600 "9N1"
  = Returns (0, 0, Some (Errorf "Invalid data bits parameter." []))
  ∧ (0 = 0 ∧ 0 = 0).
Proof.
  assert (validateConfig (U := unix.linux_amd64) 9600 "9N1"
          = Returns (0, 0, Some (Errorf "Invalid data bits parameter." [])))
    as Hv by reflexivity.
  split; [exact Hv|].
  exact (validateConfig_error_zero (U := unix.linux_amd64)
           9600 "9N1" 0 0 _ Hv).
Defined.

(** ** Running programs *)

Lemma run_bind {A B : Type} (sys : OS) (m : Prog A) (f : A → Prog B)
    (tr : trace) :
  run sys (bind m f) tr
  = match run sys m tr with
    | (Returns a, tr') => run sys (f a) tr'
    | (Panics q, tr') => (Panics q, tr')
    end.
Proof.
  revert tr. induction m as [a|q|R e k IH]; intros tr; simpl;
    [reflexivity | reflexivity | apply IH].
Qed.

Lemma run_trigger {R : Type} (sys : OS) (e : osE R) (tr : trace) :
  run sys (trigger e) tr = (Returns (sys R tr e), tr ++ [Event e (sys R tr e)]).
Proof. reflexivity. Qed.

(** ** The port handle: closed ports *)

(** C9: without an open file the ioctl helper returns [EBADFD] and makes
    no system call. *)
Theorem ioctl_closed
    {U : unix.Consts} (name : string) (req : uintptr) (arg : sysarg)
    (sys : OS) (tr : trace) :
  ioctl {| Name := name; file := None |} req arg = Ret unix.EBADFD
  ∧ run sys (ioctl {| Name := name; file := None |} req arg) tr
    = (Returns unix.EBADFD, tr).
Proof. split; reflexivity. Qed.

(** C5: on a port whose handle is absent, [SetBaud], [Read], [Write],
    [Flush] and [SendBreak] return the "not open" error that names the
    port, leave the port as it is, and record no call to the system. *)
Theorem closed_port_not_open
    {U : unix.Consts} (name : string) (baud : Z) (cfg : string)
    (b : list Byte.byte) (sys : OS) (tr : trace) :
  let s := {| Name := name; file := None |} in
  let err := Errorf "Serial port '%s' not open." [fmt.S name] in
  fmt.Sprintf "Serial port '%s' not open." [fmt.S name]
  = "Serial port '" +:+ name +:+ "' not open."
  ∧ run sys (SetBaud s baud cfg) tr = (Returns (s, Some err), tr)
  ∧ run sys (Read s b) tr = (Returns (s, (b, 0, Some err)), tr)
  ∧ run sys (Write s b) tr = (Returns (s, (0, Some err)), tr)
  ∧ run sys (Flush s) tr = (Returns (s, Some err), tr)
  ∧ run sys (SendBreak s) tr = (Returns (s, Some err), tr).
Proof. repeat split; reflexivity. Qed.

(** ** The port handle: open ports *)

(** C7: on an open port [Flush] makes exactly one system call, the ioctl
    [TCFLSH] with argument [TCIOFLUSH], and [SendBreak] exactly one, the
    ioctl [TCSBRKP] with argument 0; the result is no error when the call
    answers 0 and the answered code as an error otherwise. *)
Theorem Flush_SendBreak_open
    {U : unix.Consts} (name : string) (f : os.File) (sys : OS) (tr : trace) :
  let s := {| Name := name; file := Some f |} in
  let flush :=
    unix_Syscall unix.SYS_IOCTL (os.Fd f) unix.TCFLSH (Word unix.TCIOFLUSH) in
  let brk := unix_Syscall unix.SYS_IOCTL (os.Fd f) unix.TCSBRKP (Word 0) in
  let surfaced (errno : Z) : option error :=
    if decide (errno = 0) then None else Some (Errno_error errno) in
  run sys (Flush s) tr
  = (Returns (s, surfaced (sys _ tr flush).2),
     tr ++ [Event flush (sys _ tr flush)])
  ∧ run sys (SendBreak s) tr
    = (Returns (s, surfaced (sys _ tr brk).2),
       tr ++ [Event brk (sys _ tr brk)]).
Proof.
  intros s flush brk surfaced. unfold surfaced. split.
  - unfold Flush, ioctl. simpl. fold flush.
    destruct (sys _ tr flush) as [[r1 r2] errno]. simpl.
    destruct (decide (0 ≠ errno)), (decide (errno = 0)); simpl;
      try reflexivity; lia.
  - unfold SendBreak, ioctl. simpl. fold brk.
    destruct (sys _ tr brk) as [[r1 r2] errno]. simpl.
    destruct (decide (0 ≠ errno)), (decide (errno = 0)); simpl;
      try reflexivity; lia.
Qed.

(** C8: [Open] on an open port returns the "already open" error, keeps
    the handle and calls nothing; [Close] returns no error and leaves the
    handle absent in every state: on an open port after one [Close] of
    the file, on a closed port without any call. *)
Theorem Open_twice_Close_always
    {U : unix.Consts} (name : string) (f : os.File) (sys : OS) (tr : trace) :
  let opened := {| Name := name; file := Some f |} in
  let closed := {| Name := name; file := None |} in
  let err := Errorf "Serial port '%s' already open." [fmt.S name] in
  fmt.Sprintf "Serial port '%s' already open." [fmt.S name]
  = "Serial port '" +:+ name +:+ "' already open."
  ∧ run sys (Open opened) tr = (Returns (opened, Some err), tr)
  ∧ run sys (Close opened) tr
    = (Returns (closed, None),
       tr ++ [Event (File_Close f) (sys _ tr (File_Close f))])
  ∧ run sys (Close closed) tr = (Returns (closed, None), tr)
  ∧ ∀ s : Serial,
      (run sys (Close s) tr).1
      = Returns ({| Name := Name s; file := None |}, None).
Proof.
  repeat split; try reflexivity.
  intros [n [g|]]; reflexivity.
Qed.

Section SetBaudFacts.
Context {U : unix.Consts}.

Lemma termios_of_Cc_VMIN (rate flags : uint32) :
  unix.Cc (termios_of rate flags) !! unix.VMIN = Some 1.
Proof.
  unfold termios_of, Cc_store. simpl.
  rewrite list_lookup_insert_ne
    by (intros E; symmetry in E; exact (unix.VMIN_VTIME_distinct E)).
  apply list_lookup_insert_eq. rewrite length_replicate.
  apply unix.VMIN_in_range.
Qed.

Lemma termios_of_Cc_VTIME (rate flags : uint32) :
  unix.Cc (termios_of rate flags) !! unix.VTIME = Some 4.
Proof.
  unfold termios_of, Cc_store. simpl.
  apply list_lookup_insert_eq. rewrite length_insert, length_replicate.
  apply unix.VTIME_in_range.
Qed.

End SetBaudFacts.

(** C3: on an open port with inputs the validator accepts, [SetBaud]
    builds a block with input flags [IGNPAR], control flags
    [CREAD | CLOCAL | rate | flags], both speeds [rate], [Cc[VMIN] = 1] and
    [Cc[VTIME] = 4], and passes it to the ioctl [TCSETS]; when that call
    answers 0 it goes on to clear the non-blocking flag of the descriptor
    and returns whatever that call returns, and when it answers another
    code it returns an error at once, with no further call. *)
Theorem SetBaud_open_valid
    {U : unix.Consts} (name : string) (f : os.File) (baud : Z)
    (cfg : string) (rate flags : uint32) (sys : OS) (tr : trace) :
  validateConfig baud cfg = Returns (rate, flags, None) →
  let s := {| Name := name; file := Some f |} in
  let t := termios_of rate flags in
  let set := unix_Syscall unix.SYS_IOCTL (os.Fd f) unix.TCSETS (Pointer t) in
  let errno := (sys _ tr set).2 in
  let tr1 := tr ++ [Event set (sys _ tr set)] in
  let unblock := unix_SetNonblock (os.Fd f) false in
  (unix.Iflag t = unix.IGNPAR
   ∧ unix.Cflag t
     = Z.lor (Z.lor (Z.lor unix.CREAD unix.CLOCAL) rate) flags
   ∧ unix.Ispeed t = rate
   ∧ unix.Ospeed t = rate
   ∧ unix.Cc t !! unix.VMIN = Some 1
   ∧ unix.Cc t !! unix.VTIME = Some 4)
  ∧ run sys (SetBaud s baud cfg) tr
    = if decide (errno = 0)
      then (Returns (s, sys _ tr1 unblock),
            tr1 ++ [Event unblock (sys _ tr1 unblock)])
      else (Returns
              (s, Some (Errorf
                          ("ioctl( '%s', TCSETS, &t ) error: %d" +:+ newline)
                          [fmt.S name; fmt.D errno])),
            tr1).
Proof.
  intros Hv s t set errno tr1 unblock. split.
  - repeat split; try reflexivity.
    + apply termios_of_Cc_VMIN.
    + apply termios_of_Cc_VTIME.
  - unfold SetBaud. cbn [file s]. rewrite Hv.
    unfold ioctl. simpl.
    fold t. fold set. subst errno tr1.
    destruct (sys _ tr set) as [[r1 r2] errno]. simpl.
    destruct (decide (0 ≠ errno)), (decide (errno = 0)); simpl;
      try reflexivity; lia.
Qed.

Lemma SetBaud_open_valid_witness :
  validateConfig (U := unix.linux_amd64) 9600 "8N1"
  = Returns (0xd, 0x30, None)
  ∧ run obliging
      (SetBaud (U := unix.linux_amd64)
         {| Name := "/dev/ttyS0"; file := Some {| os.Fd := 3 |} |}
         9600 "8N1") []
    = (Returns
         ({| Name := "/dev/ttyS0"; file := Some {| os.Fd := 3 |} |}, None),
       [Event
          (unix_Syscall 16 3 0x5402
             (Pointer
                {| unix.Iflag := 0x4; unix.Oflag := 0;
                   unix.Cflag := 0x8bd; unix.Lflag := 0; unix.Line := 0;
                   unix.Cc :=
                     [0; 0; 0; 0; 0; 4; 1; 0; 0; 0; 0; 0; 0; 0; 0; 0; 0; 0; 0];
                   unix.Ispeed := 0xd; unix.Ospeed := 0xd |}))
          (0, 0, 0);
        Event (unix_SetNonblock 3 false) None]).
Proof.
  assert (validateConfig (U := unix.linux_amd64) 9600 "8N1"
          = Returns (0xd, 0x30, None)) as Hv by (vm_compute; reflexivity).
  split; [exact Hv|].
  pose proof (proj2 (SetBaud_open_valid (U := unix.linux_amd64)
                       "/dev/ttyS0" {| os.Fd := 3 |} 9600 "8N1" 0xd 0x30
                       obliging [] Hv)) as Hrun.
  vm_compute in Hrun. vm_compute. exact Hrun.
Defined.

(** ** The handle invariant *)

Lemma last_opened_snoc (tr : trace) (ev : event) :
  last_opened (tr ++ [ev])
  = match opened_by ev with
    | Some f => Some f
    | None => last_opened tr
    end.
Proof.
  unfold last_opened. rewrite omap_app. simpl.
  destruct (opened_by ev) as [f|].
  - apply last_snoc.
  - by rewrite app_nil_r.
Qed.

Lemma handle_inv_closed (name : string) (tr : trace) :
  handle_inv {| Name := name; file := None |} tr.
Proof. by left. Qed.

Lemma handle_inv_snoc (s : Serial) (tr : trace) (ev : event) :
  opened_by ev = None → handle_inv s tr → handle_inv s (tr ++ [ev]).
Proof.
  intros Hev [H|H]; [by left | right].
  by rewrite last_opened_snoc, Hev.
Qed.

Ltac answer sys :=
  match goal with
  | |- context [sys ?R ?t ?e] =>
      let r := fresh "r" in
      let E := fresh "E" in
      remember (sys R t e) as r eqn:E; clear E
  end.

Section Invariant.
Context {U : unix.Consts}.

Lemma Open_closed (name : string) (sys : OS) (tr : trace) :
  let s := {| Name := name; file := None |} in
  let opening :=
    os_OpenFile name
      (Z.lor (Z.lor unix.O_RDWR unix.O_NOCTTY) unix.O_NONBLOCK) 438 in
  run sys (Open s) tr
  = (Returns
       match sys _ tr opening with
       | inl f => ({| Name := name; file := Some f |}, None)
       | inr err => (s, Some err)
       end,
     tr ++ [Event opening (sys _ tr opening)]).
Proof.
  intros s opening. unfold Open. simpl. fold opening.
  destruct (sys _ tr opening); reflexivity.
Qed.

Lemma call_preserves (sys : OS) (m : method) (s : Serial) (tr : trace) :
  handle_inv s tr →
  match run sys (call m s) tr with
  | (Returns s', tr') => handle_inv s' tr' ∧ Name s' = Name s
  | (Panics _, tr') => handle_inv s tr'
  end.
Proof.
  intros H. destruct s as [name [f|]].
  - (* open port *)
    destruct m; unfold call.
    + simpl. by split.
    + simpl. split; [apply handle_inv_closed | reflexivity].
    + unfold SetBaud. cbn [file].
      destruct (validateConfig baud cfg) as [[[rate flags] [err|]]|q].
      * simpl. by split.
      * unfold ioctl. simpl. answer sys. destruct r as [[r1 r2] errno].
        simpl. destruct (decide (0 ≠ errno)); simpl.
        -- split; [by apply handle_inv_snoc | reflexivity].
        -- split; [|reflexivity].
           apply handle_inv_snoc; [done|]. by apply handle_inv_snoc.
      * simpl. exact H.
    + simpl. split; [by apply handle_inv_snoc | reflexivity].
    + simpl. split; [by apply handle_inv_snoc | reflexivity].
    + unfold Flush, ioctl. simpl. answer sys.
      destruct r as [[r1 r2] errno]. simpl.
      destruct (decide (0 ≠ errno)); simpl;
        (split; [by apply handle_inv_snoc | reflexivity]).
    + unfold SendBreak, ioctl. simpl. answer sys.
      destruct r as [[r1 r2] errno]. simpl.
      destruct (decide (0 ≠ errno)); simpl;
        (split; [by apply handle_inv_snoc | reflexivity]).
  - (* closed port *)
    destruct m; unfold call; try (simpl; by split).
    simpl. answer sys. destruct r as [g|err]; simpl.
    + split; [|reflexivity]. right. simpl.
      by rewrite last_opened_snoc.
    + split; [apply handle_inv_closed | reflexivity].
Qed.

Lemma calls_preserve (sys : OS) (ms : list method) (s : Serial) (tr : trace) :
  handle_inv s tr →
  match run sys (calls ms s) tr with
  | (Returns s', tr') => handle_inv s' tr'
  | (Panics _, _) => True
  end.
Proof.
  revert s tr. induction ms as [|m ms IH]; intros s tr H.
  - exact H.
  - change (calls (m :: ms) s) with (bind (call m s) (calls ms)).
    rewrite run_bind.
    pose proof (call_preserves sys m s tr H) as Hm.
    destruct (run sys (call m s) tr) as [[s'|q] tr']; [|exact I].
    apply IH. apply Hm.
Qed.

End Invariant.

(** C10: when the system's open call fails, [Open] on a closed port
    returns that error and the port stays without a handle (so the next
    [Open] asks the system again); when it succeeds the port holds the
    file it answered.  Every exported method preserves the invariant that
    the handle is absent or is the file of the most recent successful
    open, and so it holds after any sequence of calls on a fresh port. *)
Theorem Open_failure_handle_invariant
    {U : unix.Consts} (sys : OS) (name : string) (tr : trace) :
  let closed := {| Name := name; file := None |} in
  let opening :=
    os_OpenFile name
      (Z.lor (Z.lor unix.O_RDWR unix.O_NOCTTY) unix.O_NONBLOCK) 438 in
  (∀ err : error,
     sys _ tr opening = inr err →
     run sys (Open closed) tr
     = (Returns (closed, Some err), tr ++ [Event opening (inr err)]))
  ∧ (∀ f : os.File,
       sys _ tr opening = inl f →
       run sys (Open closed) tr
       = (Returns ({| Name := name; file := Some f |}, None),
          tr ++ [Event opening (inl f)]))
  ∧ (∀ (m : method) (s : Serial),
       handle_inv s tr →
       match run sys (call m s) tr with
       | (Returns s', tr') => handle_inv s' tr' ∧ Name s' = Name s
       | (Panics _, tr') => handle_inv s tr'
       end)
  ∧ (∀ ms : list method,
       match run sys (calls ms closed) [] with
       | (Returns s', tr') => handle_inv s' tr'
       | (Panics _, _) => True
       end).
Proof.
  intros closed opening. split; [|split; [|split]].
  - intros err E. subst closed opening. by rewrite Open_closed, E.
  - intros f E. subst closed opening. by rewrite Open_closed, E.
  - intros m s H. apply call_preserves, H.
  - intros ms. apply calls_preserve, handle_inv_closed.
Qed.

Lemma Open_failure_handle_invariant_witness :
  run refusing
    (Open (U := unix.linux_amd64) {| Name := "/dev/ttyS0"; file := None |})
    []
  = (Returns ({| Name := "/dev/ttyS0"; file := None |}, Some (OS_error 2)),
     [Event (os_OpenFile "/dev/ttyS0" 0x902 438) (inr (OS_error 2))])
  ∧ match
      run obliging
        (call (U := unix.linux_amd64) mFlush
           {| Name := "/dev/ttyS0"; file := None |}) []
    with
    | (Returns s', tr') =>
        handle_inv s' tr' ∧ Name s' = "/dev/ttyS0"
    | (Panics _, tr') =>
        handle_inv {| Name := "/dev/ttyS0"; file := None |} tr'
    end.
Proof.
  pose proof (Open_failure_handle_invariant (U := unix.linux_amd64))
    as T.
  split.
  - exact (proj1 (T refusing "/dev/ttyS0" []) (OS_error 2) eq_refl).
  - exact (proj1 (proj2 (proj2 (T obliging "/dev/ttyS0" []))) mFlush
             {| Name := "/dev/ttyS0"; file := None |}
             (handle_inv_closed "/dev/ttyS0" [])).
Defined.

Example methods_in_order :
  run obliging
    (calls (U := unix.linux_amd64)
       [mOpen; mOpen; mSetBaud 115200 "8N1"; mFlush; mClose; mClose; mSendBreak]
       {| Name := "/dev/ttyS0"; file := None |}) []
  = (Returns {| Name := "/dev/ttyS0"; file := None |},
     [Event (os_OpenFile "/dev/ttyS0" 0x902 438) (inl {| os.Fd := 3 |});
      Event (unix_Syscall 16 3 0x5402 (Pointer (termios_of (U := unix.linux_amd64) 0x1002 0x30)))
        (0, 0, 0);
      Event (unix_SetNonblock 3 false) None;
      Event (unix_Syscall 16 3 0x540b (Word 2)) (0, 0, 0);
      Event (File_Close {| os.Fd := 3 |}) None]).
Proof. vm_compute. reflexivity. Qed.

Example Sprintf_ioctl_error :
  fmt.Sprintf ("ioctl( '%s', TCSETS, &t ) error: %d" +:+ newline)
    [fmt.S "/dev/ttyS0"; fmt.D 5]
  = "ioctl( '/dev/ttyS0', TCSETS, &t ) error: 5" +:+ newline.
Proof. vm_compute. reflexivity. Qed.

(** * Further properties of the code *)

(** ** The validator, case by case *)

Section ValidatorCases.
Context {U : unix.Consts}.

(** The three lookups of a byte, decided by the grammar of its position. *)
Lemma dataBitsMap_cases (c : ascii) :
  (c ∈ data_bits_chars ∧ is_Some (dataBitsMap !! c))
  ∨ ((c ∉ data_bits_chars) ∧ dataBitsMap !! c = None).
Proof.
  destruct (decide (c ∈ data_bits_chars)) as [H|H];
    [left | right]; split; auto using dataBitsMap_grammar, dataBitsMap_other.
Qed.

Lemma parityMap_cases (c : ascii) :
  (c ∈ parity_chars ∧ is_Some (parityMap !! c))
  ∨ ((c ∉ parity_chars) ∧ parityMap !! c = None).
Proof.
  destruct (decide (c ∈ parity_chars)) as [H|H];
    [left | right]; split; auto using parityMap_grammar, parityMap_other.
Qed.

Lemma stopBitsMap_cases (c : ascii) :
  (c ∈ stop_bits_chars ∧ is_Some (stopBitsMap !! c))
  ∨ ((c ∉ stop_bits_chars) ∧ stopBitsMap !! c = None).
Proof.
  destruct (decide (c ∈ stop_bits_chars)) as [H|H];
    [left | right]; split; auto using stopBitsMap_grammar, stopBitsMap_other.
Qed.

Lemma baudMap_cases (baud : Z) :
  (baud ∈ supported_bauds ∧ is_Some (baudMap !! baud))
  ∨ ((baud ∉ supported_bauds) ∧ baudMap !! baud = None).
Proof.
  destruct (decide (baud ∈ supported_bauds)) as [H|H];
    [left | right]; split; auto using baudMap_supported, baudMap_unsupported.
Qed.

End ValidatorCases.

(** Splits the goal on one table lookup of [validateConfig], keeping the
    membership fact that decides it. *)
Ltac lookup_cases lem x H :=
  destruct (lem x) as [[H [? ->]] | [H ->]].

(** X1: [validateConfig] accepts exactly when the baud rate is one of the
    supported ones and the first three bytes of the mode string match the
    grammar; bytes after the third play no part. *)
Theorem validateConfig_accepted_iff
    {U : unix.Consts} (baud : Z) (cfg : string) :
  accepted (validateConfig baud cfg)
  = bool_decide (baud ∈ supported_bauds)
    && mode_grammar (String.substring 0 3 cfg).
Proof.
  unfold validateConfig.
  lookup_cases baudMap_cases baud Hb.
  2: { by rewrite (bool_decide_eq_false_2 _ Hb). }
  rewrite (bool_decide_eq_true_2 _ Hb). cbn [andb].
  destruct cfg as [|c0 [|c1 [|c2 rest]]]; cbn [index String.get mbind go_bind].
  - reflexivity.
  - lookup_cases dataBitsMap_cases c0 H0; reflexivity.
  - lookup_cases dataBitsMap_cases c0 H0; [|reflexivity].
    lookup_cases parityMap_cases c1 H1; reflexivity.
  - assert (String.substring 0 3 (String c0 (String c1 (String c2 rest)))
            = String c0 (String c1 (String c2 EmptyString))) as ->
      by (by destruct rest).
    cbn [mode_grammar].
    lookup_cases dataBitsMap_cases c0 H0.
    2: { by rewrite (bool_decide_eq_false_2 _ H0). }
    rewrite (bool_decide_eq_true_2 _ H0).
    lookup_cases parityMap_cases c1 H1.
    2: { by rewrite (bool_decide_eq_false_2 _ H1). }
    rewrite (bool_decide_eq_true_2 _ H1).
    lookup_cases stopBitsMap_cases c2 H2.
    2: { by rewrite (bool_decide_eq_false_2 _ H2). }
    by rewrite (bool_decide_eq_true_2 _ H2).
Qed.

(** X2: [validateConfig] panics exactly when the baud rate is supported
    and the mode string ends before its third byte with every byte it has
    valid for its position; the panic is the bounds check of the index
    just past the end. *)
Theorem validateConfig_panics_iff
    {U : unix.Consts} (baud : Z) (cfg : string) (q : panic) :
  validateConfig baud cfg = Panics q
  ↔ baud ∈ supported_bauds
    ∧ q = IndexOutOfRange (String.length cfg) (String.length cfg)
    ∧ (cfg = EmptyString
       ∨ (∃ c0 : ascii, cfg = String c0 EmptyString ∧ c0 ∈ data_bits_chars)
       ∨ (∃ c0 c1 : ascii,
            cfg = String c0 (String c1 EmptyString)
            ∧ c0 ∈ data_bits_chars ∧ c1 ∈ parity_chars)).
Proof.
  unfold validateConfig.
  lookup_cases baudMap_cases baud Hb.
  2: { split; [discriminate | by intros [? _]]. }
  destruct cfg as [|c0 [|c1 [|c2 rest]]]; cbn [index String.get mbind go_bind].
  - split.
    + intros [= <-]. auto.
    + by intros (_ & -> & _).
  - lookup_cases dataBitsMap_cases c0 H0.
    + split.
      * intros [= <-]. repeat split; [done|]. right; left. eauto.
      * by intros (_ & -> & _).
    + split; [discriminate|].
      intros (_ & _ & [[=] | [(b0 & [= ->] & ?) | (b0 & b1 & [=] & _)]]).
      done.
  - lookup_cases dataBitsMap_cases c0 H0.
    + lookup_cases parityMap_cases c1 H1.
      * split.
        -- intros [= <-]. repeat split; [done|]. right; right. eauto.
        -- by intros (_ & -> & _).
      * split; [discriminate|].
        intros (_ & _ & [[=] | [(b0 & [=] & _) | (b0 & b1 & [= -> ->] & _ & ?)]]).
        done.
    + split; [discriminate|].
      intros (_ & _ & [[=] | [(b0 & [=] & _) | (b0 & b1 & [= -> ->] & ? & _)]]).
      done.
  - split.
    + lookup_cases dataBitsMap_cases c0 H0; [|discriminate].
      lookup_cases parityMap_cases c1 H1; [|discriminate].
      lookup_cases stopBitsMap_cases c2 H2; discriminate.
    + intros (_ & _ & [[=] | [(b0 & [=] & _) | (b0 & b1 & [=] & _)]]).
Qed.

Lemma validateConfig_panics_iff_witness :
  validateConfig (U := unix.linux_amd64) 9600 "8"
  = Panics (IndexOutOfRange 1 1).
Proof.
  apply (proj2 (validateConfig_panics_iff (U := unix.linux_amd64)
                  9600 "8" (IndexOutOfRange 1 1))).
  split; [by_compute|]. split; [reflexivity|].
  right; left. exists "8"%char. split; [reflexivity | by_compute].
Defined.

(** X3: with a supported baud rate, a mode string whose first byte is no
    data-bits character gets the data-bits error, and one whose first
    byte is valid and whose second byte is no parity character gets the
    parity error, whatever follows and however short the string is. *)
Theorem validateConfig_first_bad_field
    {U : unix.Consts} (baud : Z) (c0 c1 : ascii) (rest : string) :
  baud ∈ supported_bauds →
  (c0 ∉ data_bits_chars →
   validateConfig baud (String c0 rest)
   = Returns (0, 0, Some (Errorf "Invalid data bits parameter." [])))
  ∧ (c0 ∈ data_bits_chars →
     c1 ∉ parity_chars →
     validateConfig baud (String c0 (String c1 rest))
     = Returns (0, 0, Some (Errorf "Invalid parity parameter." []))).
Proof.
  intros Hb. destruct (baudMap_supported baud Hb) as [rate Hrate].
  unfold validateConfig. rewrite Hrate.
  cbn [index String.get mbind go_bind]. split.
  - intros H0. by rewrite (dataBitsMap_other c0 H0).
  - intros H0 H1. destruct (dataBitsMap_grammar c0 H0) as [d ->].
    by rewrite (parityMap_other c1 H1).
Qed.

Lemma validateConfig_first_bad_field_witness :
  validateConfig (U := unix.linux_amd64) 9600 "9"
  = Returns (0, 0, Some (Errorf "Invalid data bits parameter." []))
  ∧ validateConfig (U := unix.linux_amd64) 9600 "8X"
    = Returns (0, 0, Some (Errorf "Invalid parity parameter." [])).
Proof.
  assert (9600 ∈ supported_bauds) as Hb by by_compute.
  split.
  - apply (proj1 (validateConfig_first_bad_field (U := unix.linux_amd64)
                    9600 "9"%char "N"%char "" Hb)).
    by_compute.
  - apply (proj2 (validateConfig_first_bad_field (U := unix.linux_amd64)
                    9600 "8"%char "X"%char "" Hb)); by_compute.
Defined.

(** ** The methods on an open port *)

(** X4: on an open port, when the validator does not accept the inputs,
    [SetBaud] makes no call to the system: it returns the validator's
    error with the port unchanged, or panics where the validator
    panics. *)
Theorem SetBaud_open_rejected
    {U : unix.Consts} (name : string) (f : os.File) (baud : Z)
    (cfg : string) (sys : OS) (tr : trace) :
  let s := {| Name := name; file := Some f |} in
  accepted (validateConfig baud cfg) = false →
  run sys (SetBaud s baud cfg) tr
  = (match validateConfig baud cfg with
     | Returns (_, _, err) => Returns (s, err)
     | Panics q => Panics q
     end,
     tr).
Proof.
  intros s Hacc. unfold SetBaud. cbn [file s].
  destruct (validateConfig baud cfg) as [[[rate flags] [err|]]|q];
    [reflexivity | discriminate | reflexivity].
Qed.

Lemma SetBaud_open_rejected_witness :
  run obliging
    (SetBaud (U := unix.linux_amd64)
       {| Name := "/dev/ttyS0"; file := Some {| os.Fd := 3 |} |}
       9600 "8N3") []
  = (Returns ({| Name := "/dev/ttyS0"; file := Some {| os.Fd := 3 |} |},
              Some (Errorf "Invalid parity parameter." [])),
     [])
  ∧ run obliging
      (SetBaud (U := unix.linux_amd64)
         {| Name := "/dev/ttyS0"; file := Some {| os.Fd := 3 |} |}
         9600 "8N") []
    = (Panics (IndexOutOfRange 2 2), []).
Proof.
  split.
  - pose proof (SetBaud_open_rejected (U := unix.linux_amd64)
                  "/dev/ttyS0" {| os.Fd := 3 |} 9600 "8N3" obliging []
                  ltac:(vm_compute; reflexivity)) as H.
    vm_compute in H. vm_compute. exact H.
  - pose proof (SetBaud_open_rejected (U := unix.linux_amd64)
                  "/dev/ttyS0" {| os.Fd := 3 |} 9600 "8N" obliging []
                  ltac:(vm_compute; reflexivity)) as H.
    vm_compute in H. vm_compute. exact H.
Defined.

(** X5: the block [SetBaud] hands to the kernel has no output flag, no
    local flag and line discipline 0, and its control-character array has
    [NCCS] slots that are all zero except [VMIN] and [VTIME]. *)
Theorem termios_of_rest_zero
    {U : unix.Consts} (rate flags : uint32) :
  let t := termios_of rate flags in
  unix.Oflag t = 0
  ∧ unix.Lflag t = 0
  ∧ unix.Line t = 0
  ∧ length (unix.Cc t) = unix.NCCS
  ∧ ∀ i : nat,
      (i < unix.NCCS)%nat → i ≠ unix.VMIN → i ≠ unix.VTIME →
      unix.Cc t !! i = Some 0.
Proof.
  intros t. subst t. unfold termios_of, Cc_store. cbn.
  repeat split.
  - by rewrite !length_insert, length_replicate.
  - intros i Hi Hmin Htime.
    rewrite !list_lookup_insert_ne by done.
    by apply lookup_replicate_2.
Qed.

Lemma termios_of_rest_zero_witness :
  unix.Cc (termios_of (U := unix.linux_amd64) 0xd 0x30) !! 0%nat = Some 0.
Proof.
  apply (termios_of_rest_zero (U := unix.linux_amd64) 0xd 0x30);
    cbn; [lia | discriminate | discriminate].
Defined.

(** X6: on an open port [Write] and [Read] each make exactly one call,
    the write or read of the held file with the caller's buffer, and
    return what that call returned, unchanged; the port is unchanged. *)
Theorem Write_Read_open
    {U : unix.Consts} (name : string) (f : os.File) (b : list Byte.byte)
    (sys : OS) (tr : trace) :
  let s := {| Name := name; file := Some f |} in
  run sys (Write s b) tr
  = (Returns (s, sys _ tr (File_Write f b)),
     tr ++ [Event (File_Write f b) (sys _ tr (File_Write f b))])
  ∧ run sys (Read s b) tr
    = (Returns (s, sys _ tr (File_Read f b)),
       tr ++ [Event (File_Read f b) (sys _ tr (File_Read f b))]).
Proof. split; reflexivity. Qed.

(** ** What a call does to the port and to the trace *)

Lemma run_extends {A : Type} (sys : OS) (p : Prog A) (tr : trace) :
  ∃ evs : list event, (run sys p tr).2 = tr ++ evs.
Proof.
  revert tr. induction p as [a|q|R e k IH]; intros tr; simpl.
  - exists []. by rewrite app_nil_r.
  - exists []. by rewrite app_nil_r.
  - destruct (IH (sys R tr e) (tr ++ [Event e (sys R tr e)])) as [evs ->].
    exists (Event e (sys R tr e) :: evs). by rewrite <- app_assoc.
Qed.

Lemma run_added {A : Type} (sys : OS) (p : Prog A) (tr : trace) :
  (run sys p tr).2 = tr ++ added sys p tr.
Proof.
  unfold added. destruct (run_extends sys p tr) as [evs ->].
  by rewrite drop_app_length.
Qed.

Lemma added_snoc {A : Type} (sys : OS) (p : Prog A) (tr evs : trace) :
  (run sys p tr).2 = tr ++ evs → added sys p tr = evs.
Proof. intros E. unfold added. by rewrite E, drop_app_length. Qed.

(** X7: only [Open] and [Close] change the port: whatever the system
    answers, a call of [SetBaud], [Write], [Read], [Flush] or [SendBreak]
    that returns leaves the handle and the name as they were. *)
Theorem only_Open_Close_change_port
    {U : unix.Consts} (sys : OS) (m : method) (s s' : Serial) (tr : trace) :
  m ≠ mOpen →
  m ≠ mClose →
  (run sys (call m s) tr).1 = Returns s' →
  s' = s.
Proof.
  intros HO HC. destruct s as [name [f|]]; destruct m; try done; unfold call.
  - unfold SetBaud. cbn [file].
    destruct (validateConfig baud cfg) as [[[rate flags] [err|]]|q].
    + simpl. by intros [= <-].
    + unfold ioctl. simpl. answer sys. destruct r as [[r1 r2] errno].
      simpl. destruct (decide (0 ≠ errno)); simpl; by intros [= <-].
    + simpl. discriminate.
  - simpl. by intros [= <-].
  - simpl. by intros [= <-].
  - unfold Flush, ioctl. simpl. answer sys. destruct r as [[r1 r2] errno].
    simpl. destruct (decide (0 ≠ errno)); simpl; by intros [= <-].
  - unfold SendBreak, ioctl. simpl. answer sys.
    destruct r as [[r1 r2] errno].
    simpl. destruct (decide (0 ≠ errno)); simpl; by intros [= <-].
  - simpl. by intros [= <-].
  - simpl. by intros [= <-].
  - simpl. by intros [= <-].
  - simpl. by intros [= <-].
  - simpl. by intros [= <-].
Qed.

Lemma only_Open_Close_change_port_witness :
  (run refusing
     (call (U := unix.linux_amd64) (mSetBaud 9600 "8N1")
        {| Name := "/dev/ttyS0"; file := Some {| os.Fd := 3 |} |}) []).1
  = Returns {| Name := "/dev/ttyS0"; file := Some {| os.Fd := 3 |} |}
  ∧ {| Name := "/dev/ttyS0"; file := Some {| os.Fd := 3 |} |}
    = {| Name := "/dev/ttyS0"; file := Some {| os.Fd := 3 |} |}.
Proof.
  assert ((run refusing
             (call (U := unix.linux_amd64) (mSetBaud 9600 "8N1")
                {| Name := "/dev/ttyS0"; file := Some {| os.Fd := 3 |} |})
             []).1
          = Returns {| Name := "/dev/ttyS0"; file := Some {| os.Fd := 3 |} |})
    as E by (vm_compute; reflexivity).
  split; [exact E|].
  exact (only_Open_Close_change_port (U := unix.linux_amd64) refusing
           (mSetBaud 9600 "8N1") _ _ [] ltac:(discriminate)
           ltac:(discriminate) E).
Defined.

(** ** The discipline of open, use and close *)

Section DisciplineFacts.
Context {U : unix.Consts}.

Lemma discipline_snoc (tr : trace) (ev : event) :
  discipline (tr ++ [ev]) = (held ← discipline tr; obeys held ev).
Proof. unfold discipline. by rewrite foldl_app. Qed.

Lemma discipline_use (tr : trace) (held held' : option os.File)
    (ev : event) :
  discipline tr = Some held →
  obeys held ev = Some held' →
  discipline (tr ++ [ev]) = Some held'.
Proof. intros H E. by rewrite discipline_snoc, H. Qed.

Lemma obeys_ioctl (f : os.File) (req : uintptr) (arg : sysarg)
    (r : uintptr * uintptr * Z) :
  obeys (Some f) (Event (unix_Syscall unix.SYS_IOCTL (os.Fd f) req arg) r)
  = Some (Some f).
Proof. simpl. by rewrite decide_True. Qed.

Lemma obeys_SetNonblock (f : os.File) (nb : bool) (r : option error) :
  obeys (Some f) (Event (unix_SetNonblock (os.Fd f) nb) r) = Some (Some f).
Proof. simpl. by rewrite decide_True. Qed.

Lemma obeys_Write (f : os.File) (b : list Byte.byte) (r : Z * option error) :
  obeys (Some f) (Event (File_Write f b) r) = Some (Some f).
Proof. simpl. by rewrite decide_True. Qed.

Lemma obeys_Read (f : os.File) (b : list Byte.byte)
    (r : list Byte.byte * Z * option error) :
  obeys (Some f) (Event (File_Read f b) r) = Some (Some f).
Proof. simpl. by rewrite decide_True. Qed.

Lemma obeys_Close (f : os.File) (r : option error) :
  obeys (Some f) (Event (File_Close f) r) = Some None.
Proof. simpl. by rewrite decide_True. Qed.

Lemma call_obeys (sys : OS) (m : method) (s : Serial) (tr : trace) :
  discipline tr = Some (file s) →
  match run sys (call m s) tr with
  | (Returns s', tr') => discipline tr' = Some (file s')
  | (Panics _, tr') => discipline tr' = Some (file s)
  end.
Proof.
  intros H. destruct s as [name [f|]]; cbn [file] in H.
  - destruct m; unfold call.
    + simpl. exact H.
    + simpl. eapply discipline_use; [exact H | apply obeys_Close].
    + unfold SetBaud. cbn [file].
      destruct (validateConfig baud cfg) as [[[rate flags] [err|]]|q].
      * simpl. exact H.
      * unfold ioctl. simpl. answer sys. destruct r as [[r1 r2] errno].
        simpl. destruct (decide (0 ≠ errno)); simpl.
        -- eapply discipline_use; [exact H | apply obeys_ioctl].
        -- eapply discipline_use; [|apply obeys_SetNonblock].
           eapply discipline_use; [exact H | apply obeys_ioctl].
      * simpl. exact H.
    + simpl. eapply discipline_use; [exact H | apply obeys_Write].
    + simpl. eapply discipline_use; [exact H | apply obeys_Read].
    + unfold Flush, ioctl. simpl. answer sys.
      destruct r as [[r1 r2] errno]. simpl.
      destruct (decide (0 ≠ errno)); simpl;
        (eapply discipline_use; [exact H | apply obeys_ioctl]).
    + unfold SendBreak, ioctl. simpl. answer sys.
      destruct r as [[r1 r2] errno]. simpl.
      destruct (decide (0 ≠ errno)); simpl;
        (eapply discipline_use; [exact H | apply obeys_ioctl]).
  - destruct m; unfold call; try (simpl; exact H).
    simpl. answer sys.
    destruct r as [g|err]; simpl;
      (eapply discipline_use; [exact H | reflexivity]).
Qed.

Lemma calls_obey (sys : OS) (ms : list method) (s : Serial) (tr : trace) :
  discipline tr = Some (file s) →
  match run sys (calls ms s) tr with
  | (Returns s', tr') => discipline tr' = Some (file s')
  | (Panics _, tr') => is_Some (discipline tr')
  end.
Proof.
  revert s tr. induction ms as [|m ms IH]; intros s tr H.
  - exact H.
  - change (calls (m :: ms) s) with (bind (call m s) (calls ms)).
    rewrite run_bind.
    pose proof (call_obeys sys m s tr H) as Hm.
    destruct (run sys (call m s) tr) as [[s'|q] tr']; [by apply IH | eauto].
Qed.

End DisciplineFacts.

(** X8: whatever methods are called in whatever order on a fresh port and
    whatever the system answers, the recorded calls obey the discipline
    of open, use and close: a file is opened only while none is held,
    every read, write, ioctl, flag change and close is on the file held
    at that moment, no other system call is made, and the file held at
    the end is the port's handle. *)
Theorem calls_obey_discipline
    {U : unix.Consts} (sys : OS) (name : string) (ms : list method) :
  match run sys (calls ms {| Name := name; file := None |}) [] with
  | (Returns s', tr') => discipline tr' = Some (file s')
  | (Panics _, tr') => is_Some (discipline tr')
  end.
Proof. by apply calls_obey. Qed.

Example discipline_use_after_close :
  discipline (U := unix.linux_amd64)
    [Event (os_OpenFile "/dev/ttyS0" 0x902 438) (inl {| os.Fd := 3 |});
     Event (File_Close {| os.Fd := 3 |}) None;
     Event (File_Write {| os.Fd := 3 |} []) (0, None)]
  = None.
Proof. vm_compute. reflexivity. Qed.

Example discipline_open_twice :
  discipline (U := unix.linux_amd64)
    [Event (os_OpenFile "/dev/ttyS0" 0x902 438) (inl {| os.Fd := 3 |});
     Event (os_OpenFile "/dev/ttyS0" 0x902 438) (inl {| os.Fd := 4 |})]
  = None.
Proof. vm_compute. reflexivity. Qed.

(** ** Calls in sequence *)

(** X9: after [Close], from any state and whatever the system answered,
    the port is closed: each of [SetBaud], [Read], [Write], [Flush] and
    [SendBreak] returns the "not open" error and a second [Close] returns
    no error, none of them adding a call to those of the first [Close]. *)
Theorem after_Close_not_open
    {U : unix.Consts} (sys : OS) (s : Serial) (baud : Z) (cfg : string)
    (b : list Byte.byte) (tr : trace) :
  let closed := {| Name := Name s; file := None |} in
  let err := Errorf "Serial port '%s' not open." [fmt.S (Name s)] in
  let tr' := (run sys (Close s) tr).2 in
  run sys (r ← Close s; SetBaud r.1 baud cfg) tr
  = (Returns (closed, Some err), tr')
  ∧ run sys (r ← Close s; Read r.1 b) tr
    = (Returns (closed, (b, 0, Some err)), tr')
  ∧ run sys (r ← Close s; Write r.1 b) tr
    = (Returns (closed, (0, Some err)), tr')
  ∧ run sys (r ← Close s; Flush r.1) tr = (Returns (closed, Some err), tr')
  ∧ run sys (r ← Close s; SendBreak r.1) tr
    = (Returns (closed, Some err), tr')
  ∧ run sys (r ← Close s; Close r.1) tr = (Returns (closed, None), tr').
Proof. destruct s as [name [f|]]; repeat split; reflexivity. Qed.

(** X10: [Open] then [Close] on a closed port brings it back to the
    closed port it was: when the system's open succeeds, the file it
    answered is the one closed, by the one call that follows; when it
    fails, nothing follows. *)
Theorem Open_then_Close
    {U : unix.Consts} (sys : OS) (name : string) (tr : trace) :
  let closed := {| Name := name; file := None |} in
  let opening :=
    os_OpenFile name
      (Z.lor (Z.lor unix.O_RDWR unix.O_NOCTTY) unix.O_NONBLOCK) 438 in
  let tr1 := tr ++ [Event opening (sys _ tr opening)] in
  run sys (calls [mOpen; mClose] closed) tr
  = (Returns closed,
     match sys _ tr opening with
     | inl f => tr1 ++ [Event (File_Close f) (sys _ tr1 (File_Close f))]
     | inr _ => tr1
     end).
Proof.
  intros closed opening tr1. subst tr1. simpl. fold opening.
  destruct (sys _ tr opening) as [f|err]; reflexivity.
Qed.

Ltac count_added :=
  unfold added; simpl;
  rewrite <- ?app_assoc, ?drop_app_length, ?drop_all; simpl; lia.

(** X11: one call of a method adds to the trace and nothing else, and it
    adds few calls: none on a closed port unless it is [Open], which adds
    one; on an open port none for [Open], at most two for [SetBaud] and
    at most one for every other method. *)
Theorem call_adds_at_most
    {U : unix.Consts} (sys : OS) (m : method) (s : Serial) (tr : trace) :
  (run sys (call m s) tr).2 = tr ++ added sys (call m s) tr
  ∧ (length (added sys (call m s) tr)
     ≤ match file s, m with
       | None, mOpen => 1
       | None, _ => 0
       | Some _, mOpen => 0
       | Some _, mSetBaud _ _ => 2
       | Some _, _ => 1
       end)%nat.
Proof.
  split; [apply run_added|].
  destruct s as [name [f|]]; cbn [file]; destruct m; unfold call.
  - count_added.
  - count_added.
  - unfold SetBaud. cbn [file].
    destruct (validateConfig baud cfg) as [[[rate flags] [err|]]|q].
    + count_added.
    + unfold ioctl, added. simpl. answer sys.
      destruct r as [[r1 r2] errno]. simpl.
      destruct (decide (0 ≠ errno)); simpl;
        rewrite <- ?app_assoc, ?drop_app_length; simpl; lia.
    + count_added.
  - count_added.
  - count_added.
  - unfold Flush, ioctl, added. simpl. answer sys.
    destruct r as [[r1 r2] errno]. simpl.
    destruct (decide (0 ≠ errno)); simpl;
      rewrite ?drop_app_length; simpl; lia.
  - unfold SendBreak, ioctl, added. simpl. answer sys.
    destruct r as [[r1 r2] errno]. simpl.
    destruct (decide (0 ≠ errno)); simpl;
      rewrite ?drop_app_length; simpl; lia.
  - unfold added. simpl. answer sys.
    destruct r as [g|err]; simpl; rewrite ?drop_app_length; simpl; lia.
  - count_added.
  - count_added.
  - count_added.
  - count_added.
  - count_added.
  - count_added.
Qed.
